(** * Orbital geometry of the asteroid tracker

  A shallow embedding of the geometry code of [asteroid_tracker.py]:
  [draw_orbit], [calculate_position] and the per-frame angle update of the
  animation loop, together with the unguarded [calculate_position] and
  angle update of [ui3.py], [create_simulated_asteroid], and the
  conversion of the orbital elements in the two [fetch_asteroid_data]
  (with [float] on strings as a parameter).

  The arithmetic is embedded twice.

  Real-number model.  A float is a real number, or one of the two
  non-finite outcomes the code can produce from finite operands: [NaN]
  (square root of a negative number, 0/0, inf*0) and [Inf] (a non-zero
  number divided by zero; the sign is not tracked).  [int(...)] truncates
  toward zero and raises on a non-finite operand.  Rounding and overflow
  are absent from this model; it carries the statements that rounding
  cannot change: closed inputs, orderings, and bounds with a margin.

  Binary64 model (module [B64]).  A float is a primitive binary64 float
  and every operation is the correctly rounded IEEE 754 one, so rounding,
  overflow to an infinity and the exceptions that follow from them are
  those of the code.  It carries the statements that depend on the exact
  value of a product or a quotient.

  Network access, JSON decoding, number formatting, [np.cos] and [np.sin]
  in binary64, and the drawing calls themselves are not modelled. *)

From Stdlib Require Import Floats Reals ZArith Lra Lia List String Ascii.
Import ListNotations.

Set Warnings "-inexact-float".

Open Scope R_scope.

(** ** Python and numpy primitives *)

Module Py.

(** The two exceptions [int()] raises on a float. *)
Inductive exn : Set :=
| ValueError      (* cannot convert float NaN to integer *)
| OverflowError.  (* cannot convert float infinity to integer *)

Inductive result (A : Type) : Type :=
| Ok (a : A)
| Raise (e : exn).
Arguments Ok {A} a.
Arguments Raise {A} e.

Definition bind {A B : Type} (c : result A) (k : A -> result B) : result B :=
  match c with
  | Ok a => k a
  | Raise e => Raise e
  end.

(** A float value: finite, or non-finite. *)
Inductive float : Type :=
| Fin (x : R)
| Inf
| NaN.

(** Float product. *)
Definition mul (u v : float) : float :=
  match u, v with
  | Fin x, Fin y => Fin (x * y)
  | NaN, _ | _, NaN => NaN
  | Inf, Inf => Inf
  | Inf, Fin y => if Req_dec_T y 0 then NaN else Inf
  | Fin x, Inf => if Req_dec_T x 0 then NaN else Inf
  end.

(** numpy's true division of two finite floats: a zero divisor gives
    inf (or nan for 0/0) with a warning, never an exception. *)
Definition truediv (x y : R) : float :=
  if Req_dec_T y 0 then (if Req_dec_T x 0 then NaN else Inf)
  else Fin (x / y).

(** [np.sqrt]: nan on a negative argument. *)
Definition np_sqrt (x : R) : float :=
  if Rlt_dec x 0 then NaN else Fin (sqrt x).

(** Truncation toward zero of a finite float. *)
Definition trunc (x : R) : Z :=
  if Rle_dec 0 x then Int_part x else (- Int_part (- x))%Z.

(** [int(v)] on a float. *)
Definition int (v : float) : result Z :=
  match v with
  | Fin x => Ok (trunc x)
  | NaN => Raise ValueError
  | Inf => Raise OverflowError
  end.

(** [max(a, b)] keeps its first argument unless the second is greater;
    [min(a, b)] keeps its first argument unless the second is smaller. *)
Definition max (a b : R) : R := if Rlt_dec a b then b else a.
Definition min (a b : R) : R := if Rlt_dec b a then b else a.

End Py.

Import Py.

Notation "x <- c ;; k" := (Py.bind c (fun x => k))
  (at level 61, c at next level, right associativity).

(** ** The program *)

(** The two fields of an asteroid record the geometry code reads. *)
Record orbit_params : Type := mk_orbit {
  semi_major_axis : R;
  eccentricity : R
}.

(** Configuration. *)
Definition WIDTH : Z := 1200.
Definition HEIGHT : Z := 800.
Definition CENTER : Z * Z := ((WIDTH / 2)%Z, (HEIGHT / 2)%Z).
Definition SCALE : Z := 150.

(** Entries of the table in [create_simulated_asteroid]. *)
Definition eros : orbit_params := mk_orbit 1.46 0.23.
Definition bennu : orbit_params := mk_orbit 1.13 0.20.
Definition neo202136 : orbit_params := mk_orbit 1.20 0.15.

(** [draw_orbit]: the centre and the axes handed to [cv2.ellipse]. *)
Definition draw_orbit (p : orbit_params) : result ((Z * Z) * (Z * Z)) :=
  let a_pixels := semi_major_axis p * IZR SCALE in
  let e := eccentricity p in
  let a_pixels := if Rle_dec a_pixels 0 then 1.0 * IZR SCALE else a_pixels in
  let e := if Rge_dec e 1.0 then 0.9 else e in
  let b_pixels := mul (Fin a_pixels) (np_sqrt (1 - e ^ 2)) in
  dx <- int (Fin (a_pixels * e)) ;;
  let center_x := (fst CENTER + dx)%Z in
  let center_y := snd CENTER in
  ax <- int (Fin a_pixels) ;;
  bx <- int b_pixels ;;
  Ok ((center_x, center_y), (ax, bx)).

(** The locals [a_pixels] and [e] of [draw_orbit] after its two
    substitutions, named for the statements below. *)
Definition drawn_a_pixels (p : orbit_params) : R :=
  if Rle_dec (semi_major_axis p * IZR SCALE) 0 then 1.0 * IZR SCALE
  else semi_major_axis p * IZR SCALE.
Definition drawn_e (p : orbit_params) : R :=
  if Rge_dec (eccentricity p) 1.0 then 0.9 else eccentricity p.

(** The locals [a], [e] and [r] of [calculate_position]. *)
Definition pos_a (p : orbit_params) : R := Py.max (semi_major_axis p) 0.1.
Definition pos_e (p : orbit_params) : R :=
  Py.min (Py.max (eccentricity p) 0) 0.99.
Definition pos_den (p : orbit_params) (angle_rad : R) : R :=
  1 + pos_e p * cos angle_rad.
Definition pos_r (p : orbit_params) (angle_rad : R) : float :=
  truediv (pos_a p * (1 - pos_e p ^ 2)) (pos_den p angle_rad).

(** [calculate_position]. *)
Definition calculate_position (p : orbit_params) (angle_rad : R)
  : result (Z * Z) :=
  let r := pos_r p angle_rad in
  let x := mul r (Fin (cos angle_rad)) in
  let y := mul r (Fin (sin angle_rad)) in
  dx <- int (mul x (Fin (IZR SCALE))) ;;
  let img_x := (fst CENTER + dx)%Z in
  dy <- int (mul y (Fin (IZR SCALE))) ;;
  let img_y := (snd CENTER - dy)%Z in
  Ok (img_x, img_y).

(** The angle update at the end of the per-asteroid loop body. *)
Definition speed_factor (p : orbit_params) : R :=
  0.01 / Py.max (semi_major_axis p) 0.1.
Definition next_angle (angle : R) (p : orbit_params) : R :=
  angle + speed_factor p.

(** ** The operations as the specification words them *)

Module Spec.

(** Substitution of degenerate elements before the ellipse is computed. *)
Definition sanitize (p : orbit_params) : orbit_params :=
  mk_orbit
    (if Rle_dec (semi_major_axis p * IZR SCALE) 0 then 1.0
     else semi_major_axis p)
    (if Rle_dec 1.0 (eccentricity p) then 0.9 else eccentricity p).


End Spec.

(** ** The rest of the program *)

(** *** The unguarded variant of [ui3.py] *)

Module Ui3.

(** [calculate_position] of [ui3.py]: the same formula with no clamp. *)
Definition calculate_position (p : orbit_params) (angle_rad : R)
  : result (Z * Z) :=
  let a := semi_major_axis p in
  let e := eccentricity p in
  let r := truediv (a * (1 - e ^ 2)) (1 + e * cos angle_rad) in
  let x := mul r (Fin (cos angle_rad)) in
  let y := mul r (Fin (sin angle_rad)) in
  dx <- int (mul x (Fin (IZR SCALE))) ;;
  let img_x := (fst CENTER + dx)%Z in
  dy <- int (mul y (Fin (IZR SCALE))) ;;
  let img_y := (snd CENTER - dy)%Z in
  Ok (img_x, img_y).

(** [angles[i] += 0.01 / ast['semi_major_axis']]: a division of two Python
    floats, which raises ZeroDivisionError on a zero divisor. *)
Inductive step : Type :=
| Advanced (angle : R)
| ZeroDivisionError.

Definition next_angle (angle : R) (p : orbit_params) : step :=
  if Req_dec_T (semi_major_axis p) 0 then ZeroDivisionError
  else Advanced (angle + 0.01 / semi_major_axis p).

End Ui3.

(** *** Asteroid records *)

(** The dictionary built by [fetch_asteroid_data] and
    [create_simulated_asteroid]; the two keys the geometry reads are kept
    together in [params]. *)
Record asteroid : Type := mk_asteroid {
  name : string;
  id : string;
  params : orbit_params;
  inclination : R;
  diameter_km : string;
  data_quality : string
}.

(** [str.isdigit] and [int(str)] on ASCII text. *)
Definition is_digit_char (c : ascii) : bool :=
  ((48 <=? nat_of_ascii c)%nat && (nat_of_ascii c <=? 57)%nat)%bool.

Fixpoint all_digits (s : string) : bool :=
  match s with
  | EmptyString => true
  | String c s' => (is_digit_char c && all_digits s')%bool
  end.

Definition isdigit (s : string) : bool :=
  match s with
  | EmptyString => false
  | String _ _ => all_digits s
  end.

(** Text whose characters are all below U+0080, on which the two
    definitions above are [str.isdigit] and the digit test of [int]. *)
Fixpoint is_ascii (s : string) : bool :=
  match s with
  | EmptyString => true
  | String c s' => ((nat_of_ascii c <? 128)%nat && is_ascii s')%bool
  end.

Definition digit_value (c : ascii) : Z := (Z.of_nat (nat_of_ascii c) - 48)%Z.

Fixpoint int_digits (acc : Z) (s : string) : Z :=
  match s with
  | EmptyString => acc
  | String c s' => int_digits (10 * acc + digit_value c)%Z s'
  end.

Definition int_of_str (s : string) : Z := int_digits 0 s.

(** The table [simulated_data] of [create_simulated_asteroid]. *)
Definition simulated_data (asteroid_id : string)
  : option (string * orbit_params * R) :=
  if String.eqb asteroid_id "433"
  then Some ("433 Eros (Simulated)"%string, eros, 10.8)
  else if String.eqb asteroid_id "2000216"
  then Some ("101955 Bennu (Simulated)"%string, bennu, 6.0)
  else if String.eqb asteroid_id "202136"
  then Some ("NEO 202136 (Simulated)"%string, neo202136, 3.5)
  else None.

(** [create_simulated_asteroid]. *)
Definition create_simulated_asteroid (asteroid_id : string) : asteroid :=
  match simulated_data asteroid_id with
  | Some (n, ae, i) =>
      mk_asteroid n asteroid_id ae i "Simulated" "simulated"
  | None =>
      let d := IZR (int_of_str asteroid_id mod 10) in
      mk_asteroid
        ("Asteroid " ++ asteroid_id ++ " (Simulated)")%string
        asteroid_id
        (mk_orbit
           (if isdigit asteroid_id then 1.5 + d * 0.2 else 2.0)
           (if isdigit asteroid_id then 0.1 + d * 0.05 else 0.2))
        (if isdigit asteroid_id then 5.0 + d * 2.0 else 8.0)
        "Simulated" "simulated"
  end.

(** *** Conversion of the fetched orbital elements *)

(** The [orbit] object of a response, its values being strings. *)
Definition dict : Type := list (string * string).

Fixpoint lookup (d : dict) (key : string) : option string :=
  match d with
  | [] => None
  | (k, v) :: d' => if String.eqb k key then Some v else lookup d' key
  end.

(** [d.get(key, default)]. *)
Definition get (d : dict) (key default : string) : string :=
  match lookup d key with
  | Some v => v
  | None => default
  end.

(** [float(s) if s else default], for a [float] that returns [None] where
    Python raises ValueError. *)
Definition float_or (py_float : string -> option R) (s : string) (default : R)
  : option R :=
  match s with
  | EmptyString => Some default
  | String _ _ => py_float s
  end.

(** Lines 39-49 of [fetch_asteroid_data]: the three elements, with the
    [except ValueError] branch replacing all of them. *)
Definition fetched_elements (py_float : string -> option R) (orbit_data : dict)
  : R * R * R :=
  let a_str := get orbit_data "a" "0" in
  let e_str := get orbit_data "e" "0" in
  let i_str := get orbit_data "i" "0" in
  match float_or py_float a_str 1.0 with
  | Some a =>
      match float_or py_float e_str 0.1 with
      | Some e =>
          match float_or py_float i_str 5.0 with
          | Some i => (a, e, i)
          | None => (1.0, 0.1, 5.0)
          end
      | None => (1.0, 0.1, 5.0)
      end
  | None => (1.0, 0.1, 5.0)
  end.

(** ['real' if a > 0 else 'simulated']. *)
Definition quality_of (a : R) : string :=
  if Rlt_dec 0 a then "real" else "simulated".

Module Api.

(** [float(orbit_data.get(key, 0))] of [api.py]: the default is the number
    0, and a ValueError is not caught. *)
Definition element (py_float : string -> option R) (orbit_data : dict)
  (key : string) : result R :=
  match lookup orbit_data key with
  | None => Ok 0
  | Some s =>
      match py_float s with
      | Some x => Ok x
      | None => Raise ValueError
      end
  end.

Definition fetched_elements (py_float : string -> option R) (orbit_data : dict)
  : result (R * R * R) :=
  a <- element py_float orbit_data "a" ;;
  e <- element py_float orbit_data "e" ;;
  i <- element py_float orbit_data "i" ;;
  Ok (a, e, i).

End Api.

(** A finite sample of [float(s)], used to instantiate the statements
    about the conversion: the strings it does not list raise ValueError. *)
Definition sample_float (s : string) : option R :=
  if String.eqb s "0" then Some 0
  else if String.eqb s "1.46" then Some 1.46
  else if String.eqb s "0.23" then Some 0.23
  else if String.eqb s "10.8" then Some 10.8
  else None.

(** ** The binary64 model *)

(** The same code over Rocq's primitive binary64 floats, whose operations
    are the correctly rounded IEEE 754 ones that Python and numpy use.
    [e ** 2] is taken to be the correctly rounded square, raising
    OverflowError when a finite operand overflows.  [np.cos] and [np.sin]
    are not modelled: [calculate_position] receives the two values they
    return for [angle_rad], which is the only use the function makes of its
    angle. *)

Module B64.

Local Open Scope float_scope.
Local Abbreviation float := PrimFloat.float (only parsing).

Inductive exn : Set :=
| ValueError
| OverflowError
| ZeroDivisionError.

Inductive result (A : Type) : Type :=
| Ok (a : A)
| Raise (e : exn).
Arguments Ok {A} a.
Arguments Raise {A} e.

Definition bind {A B : Type} (c : result A) (k : A -> result B) : result B :=
  match c with
  | Ok a => k a
  | Raise e => Raise e
  end.

Declare Scope b64_scope.
Notation "x <- c ;; k" := (bind c (fun x => k))
  (at level 61, c at next level, right associativity) : b64_scope.
Local Open Scope b64_scope.

(** [int(v)]: the value [m * 2^e] truncated toward zero; NaN and the
    infinities raise. *)
Definition int (v : float) : result Z :=
  match Prim2SF v with
  | S754_nan => Raise ValueError
  | S754_infinity _ => Raise OverflowError
  | S754_zero _ => Ok 0%Z
  | S754_finite s m e => Ok (cond_Zopp s (Z.shiftl (Zpos m) e))
  end.

(** [x ** 2] on a Python float. *)
Definition pow2 (x : float) : result float :=
  if (is_finite x && is_infinity (x * x))%bool then Raise OverflowError
  else Ok (x * x).

(** [x / y] on two Python floats. *)
Definition truediv (x y : float) : result float :=
  if is_zero y then Raise ZeroDivisionError else Ok (x / y).

(** [max(a, b)] keeps [a] unless [b > a]; [min(a, b)] keeps [a] unless
    [b < a]. *)
Definition max (a b : float) : float := if a <? b then b else a.
Definition min (a b : float) : float := if b <? a then b else a.

Record orbit_params : Type := mk_orbit {
  semi_major_axis : float;
  eccentricity : float
}.

(** [SCALE], as the float every product converts it to. *)
Definition SCALE : float := 150.

Definition eros : orbit_params := mk_orbit 1.46 0.23.
Definition bennu : orbit_params := mk_orbit 1.13 0.20.
Definition neo202136 : orbit_params := mk_orbit 1.20 0.15.

(** [draw_orbit]: the centre and the axes handed to [cv2.ellipse]. *)
Definition draw_orbit (p : orbit_params) : result ((Z * Z) * (Z * Z)) :=
  let a_pixels := semi_major_axis p * SCALE in
  let e := eccentricity p in
  let a_pixels := if a_pixels <=? 0 then 1.0 * SCALE else a_pixels in
  let e := if 1.0 <=? e then 0.9 else e in
  e2 <- pow2 e ;;
  let b_pixels := a_pixels * PrimFloat.sqrt (1 - e2) in
  dx <- int (a_pixels * e) ;;
  let center_x := (fst CENTER + dx)%Z in
  let center_y := snd CENTER in
  ax <- int a_pixels ;;
  bx <- int b_pixels ;;
  Ok ((center_x, center_y), (ax, bx)).

(** The locals [a], [e] and [r] of [calculate_position]. *)
Definition pos_a (p : orbit_params) : float := max (semi_major_axis p) 0.1.
Definition pos_e (p : orbit_params) : float :=
  min (max (eccentricity p) 0) 0.99.
Definition pos_r (p : orbit_params) (cos_angle : float) : result float :=
  e2 <- pow2 (pos_e p) ;;
  Ok ((pos_a p * (1 - e2)) / (1 + pos_e p * cos_angle)).

(** [calculate_position], given [np.cos(angle_rad)] and
    [np.sin(angle_rad)]. *)
Definition calculate_position (p : orbit_params) (cos_angle sin_angle : float)
  : result (Z * Z) :=
  r <- pos_r p cos_angle ;;
  let x := r * cos_angle in
  let y := r * sin_angle in
  dx <- int (x * SCALE) ;;
  let img_x := (fst CENTER + dx)%Z in
  dy <- int (y * SCALE) ;;
  let img_y := (snd CENTER - dy)%Z in
  Ok (img_x, img_y).

(** The angle update at the end of the per-asteroid loop body. *)
Definition speed_factor (p : orbit_params) : result float :=
  truediv 0.01 (max (semi_major_axis p) 0.1).
Definition next_angle (angle : float) (p : orbit_params) : result float :=
  s <- speed_factor p ;;
  Ok (angle + s).

(** The unclamped [calculate_position] of [ui3.py]. *)
Module Ui3.

Definition calculate_position (p : orbit_params)
  (cos_angle sin_angle : float) : result (Z * Z) :=
  let a := semi_major_axis p in
  let e := eccentricity p in
  e2 <- pow2 e ;;
  let r := (a * (1 - e2)) / (1 + e * cos_angle) in
  let x := r * cos_angle in
  let y := r * sin_angle in
  dx <- int (x * SCALE) ;;
  let img_x := (fst CENTER + dx)%Z in
  dy <- int (y * SCALE) ;;
  let img_y := (snd CENTER - dy)%Z in
  Ok (img_x, img_y).

End Ui3.

(** The operations as the specification words them, in binary64, for a
    conversion to integer that is a parameter. *)
Module Spec.





End Spec.

End B64.

(** ** Facts about the primitives *)

Section Primitives.

Lemma max_is_Rmax (a b : R) : Py.max a b = Rmax a b.
Proof.
  unfold Py.max, Rmax.
  destruct (Rlt_dec a b), (Rle_dec a b); lra.
Qed.

Lemma min_is_Rmin (a b : R) : Py.min a b = Rmin a b.
Proof.
  unfold Py.min, Rmin.
  destruct (Rlt_dec b a), (Rle_dec a b); lra.
Qed.

Lemma Int_part_between (x : R) (n : Z) :
  IZR n <= x < IZR n + 1 -> Int_part x = n.
Proof.
  intros H. symmetry. apply Int_part_spec. lra.
Qed.

Lemma trunc_nonneg (x : R) (n : Z) :
  0 <= x -> IZR n <= x < IZR n + 1 -> trunc x = n.
Proof.
  intros H0 H. unfold trunc.
  destruct (Rle_dec 0 x) as [_ | C]; [| contradiction].
  now apply Int_part_between.
Qed.

Lemma trunc_0 : trunc 0 = 0%Z.
Proof. apply trunc_nonneg; simpl; lra. Qed.

Lemma trunc_IZR (n : Z) : trunc (IZR n) = n.
Proof.
  unfold trunc. destruct (Rle_dec 0 (IZR n)).
  - apply Int_part_between. lra.
  - rewrite <- opp_IZR, (Int_part_between (IZR (- n)) (- n)); lia || lra.
Qed.


(** Truncation never moves a value by a full unit, and never away from 0. *)
Lemma trunc_bounds (x : R) :
  (0 <= x -> IZR (trunc x) <= x < IZR (trunc x) + 1) /\
  (x <= 0 -> IZR (trunc x) - 1 < x <= IZR (trunc x)).
Proof.
  unfold trunc. split; intros H.
  - destruct (Rle_dec 0 x) as [_ | C]; [| contradiction].
    destruct (base_Int_part x). lra.
  - destruct (Rle_dec 0 x) as [P | N].
    + assert (x = 0) as -> by lra.
      rewrite (Int_part_between 0 0); simpl; lra.
    + destruct (base_Int_part (- x)). rewrite opp_IZR. lra.
Qed.

End Primitives.

(** ** The clamps of [calculate_position] *)

Section Position.

Variable p : orbit_params.

Lemma pos_a_floor : 0.1 <= pos_a p /\ semi_major_axis p <= pos_a p.
Proof.
  unfold pos_a, Py.max.
  destruct (Rlt_dec (semi_major_axis p) 0.1); lra.
Qed.

Lemma pos_e_range : 0 <= pos_e p <= 0.99.
Proof.
  unfold pos_e, Py.min, Py.max.
  destruct (Rlt_dec (eccentricity p) 0);
    match goal with |- context [Rlt_dec ?a ?b] => destruct (Rlt_dec a b) end;
    lra.
Qed.

(** Inside the clamp ranges the clamps do nothing. *)
Lemma pos_a_id : 0.1 <= semi_major_axis p -> pos_a p = semi_major_axis p.
Proof.
  intros H. unfold pos_a, Py.max.
  destruct (Rlt_dec (semi_major_axis p) 0.1); lra.
Qed.

Lemma pos_e_id : 0 <= eccentricity p <= 0.99 -> pos_e p = eccentricity p.
Proof.
  intros H. unfold pos_e, Py.min, Py.max.
  destruct (Rlt_dec (eccentricity p) 0);
    match goal with |- context [Rlt_dec ?a ?b] => destruct (Rlt_dec a b) end;
    lra.
Qed.

Lemma pos_den_bounds (angle : R) :
  0.01 <= 1 - pos_e p <= pos_den p angle /\ pos_den p angle <= 1 + pos_e p.
Proof.
  unfold pos_den.
  pose proof pos_e_range as He. pose proof (COS_bound angle) as Hc.
  repeat split; nra.
Qed.

Lemma pos_r_finite (angle : R) :
  pos_r p angle = Fin (pos_a p * (1 - pos_e p ^ 2) / pos_den p angle).
Proof.
  unfold pos_r, truediv.
  pose proof (pos_den_bounds angle).
  destruct (Req_dec_T (pos_den p angle) 0); [lra | reflexivity].
Qed.

(** The result of [calculate_position], with every finiteness test and
    every exception path discharged. *)
Lemma calculate_position_value (angle : R) :
  let r := pos_a p * (1 - pos_e p ^ 2) / pos_den p angle in
  calculate_position p angle =
  Ok ((fst CENTER + trunc (r * cos angle * IZR SCALE))%Z,
      (snd CENTER - trunc (r * sin angle * IZR SCALE))%Z).
Proof.
  intros r. unfold calculate_position.
  rewrite pos_r_finite. reflexivity.
Qed.

End Position.

(** ** Shared computations *)

Lemma IZR_SCALE : IZR SCALE = 150.
Proof. reflexivity. Qed.


(** At angle 0 the radius is [a (1 - e)] and the body sits on the
    horizontal line through the centre. *)
Lemma position_at_0 (p : orbit_params) :
  calculate_position p 0 =
  Ok ((fst CENTER + trunc (pos_a p * (1 - pos_e p) * IZR SCALE))%Z,
      snd CENTER).
Proof.
  rewrite calculate_position_value. unfold pos_den.
  rewrite cos_0, sin_0.
  pose proof (pos_e_range p) as He.
  replace (pos_a p * (1 - pos_e p ^ 2) / (1 + pos_e p * 1) * 1 * IZR SCALE)
    with (pos_a p * (1 - pos_e p) * IZR SCALE) by (field; lra).
  replace (pos_a p * (1 - pos_e p ^ 2) / (1 + pos_e p * 1) * 0 * IZR SCALE)
    with 0 by (field; lra).
  rewrite trunc_0. reflexivity.
Qed.

Lemma eros_clamps : pos_a eros = 1.46 /\ pos_e eros = 0.23.
Proof.
  split; [apply pos_a_id | apply pos_e_id]; simpl; lra.
Qed.

Lemma eros_at_0 : calculate_position eros 0 = Ok (768%Z, 400%Z).
Proof.
  rewrite position_at_0. destruct eros_clamps as [-> ->].
  rewrite IZR_SCALE, (trunc_nonneg _ 168); [reflexivity | lra | lra].
Qed.

(** ** Claims about [calculate_position] *)

(** C1, as stated, fails: for Eros (a = 1.46, e = 0.23) at angle 0 the
    program does not return (769, 400). *)
Lemma C1_eros_is_not_769 : calculate_position eros 0 <> Ok (769%Z, 400%Z).
Proof.
  rewrite eros_at_0. intros H. injection H as H. lia.
Qed.

(** C1, amended: for Eros at angle 0 the program returns (768, 400), which
    is (600 + trunc (1.46 * (1 - 0.23) * 150), 400): the product 168.63 is
    truncated toward zero, not rounded to the nearest integer. *)
Theorem C1_eros_periapsis_pixel :
  calculate_position eros 0 =
    Ok ((600 + trunc (1.46 * (1 - 0.23) * 150))%Z, 400%Z)
  /\ trunc (1.46 * (1 - 0.23) * 150) = 168%Z
  /\ calculate_position eros 0 = Ok (768%Z, 400%Z).
Proof.
  assert (T : trunc (1.46 * (1 - 0.23) * 150) = 168%Z)
    by (apply trunc_nonneg; lra).
  rewrite T. repeat split; apply eros_at_0.
Qed.

(** ** Claims about [draw_orbit] *)

Lemma sqrt_between (x l u : R) :
  0 <= l -> 0 <= u -> l * l <= x < u * u -> l <= sqrt x < u.
Proof.
  intros Hl Hu [Lo Hi]. split.
  - rewrite <- (sqrt_square l Hl). now apply sqrt_le_1_alt.
  - rewrite <- (sqrt_square u Hu). apply sqrt_lt_1_alt. nra.
Qed.

Lemma drawn_ranges (p : orbit_params) : 0 < drawn_a_pixels p /\ drawn_e p < 1.
Proof.
  unfold drawn_a_pixels, drawn_e. rewrite IZR_SCALE.
  destruct (Rle_dec _ _), (Rge_dec _ _); lra.
Qed.

Lemma drawn_id (p : orbit_params) :
  0 < semi_major_axis p * IZR SCALE -> eccentricity p < 1 ->
  drawn_a_pixels p = semi_major_axis p * IZR SCALE
  /\ drawn_e p = eccentricity p.
Proof.
  intros Ha He. unfold drawn_a_pixels, drawn_e.
  destruct (Rle_dec _ _), (Rge_dec _ _); lra.
Qed.

(** With the eccentricity at or above -1 the square root is real and the
    ellipse is drawn. *)
Lemma draw_orbit_value (p : orbit_params) :
  -1 <= drawn_e p ->
  draw_orbit p =
  Ok (((fst CENTER + trunc (drawn_a_pixels p * drawn_e p))%Z, snd CENTER),
      (trunc (drawn_a_pixels p),
       trunc (drawn_a_pixels p * sqrt (1 - drawn_e p ^ 2)))).
Proof.
  intros He. pose proof (drawn_ranges p) as [_ He1].
  unfold draw_orbit. fold (drawn_a_pixels p). fold (drawn_e p).
  unfold np_sqrt.
  destruct (Rlt_dec (1 - drawn_e p ^ 2) 0) as [C |]; [nra | reflexivity].
Qed.

(** Below -1 the square root is NaN and the conversion of the minor axis
    raises. *)
Lemma draw_orbit_raises (p : orbit_params) :
  eccentricity p < -1 -> draw_orbit p = Raise ValueError.
Proof.
  intros He. unfold draw_orbit, np_sqrt.
  destruct (Rge_dec (eccentricity p) 1.0); [lra |].
  destruct (Rlt_dec (1 - eccentricity p ^ 2) 0) as [| C]; [| nra].
  destruct (Rle_dec _ _); reflexivity.
Qed.

Lemma draw_orbit_sanitize (p : orbit_params) :
  draw_orbit (Spec.sanitize p) = draw_orbit p.
Proof.
  unfold draw_orbit, Spec.sanitize; simpl. rewrite IZR_SCALE.
  destruct (Rle_dec (semi_major_axis p * 150) 0) as [A | A];
    destruct (Rle_dec 1.0 (eccentricity p)) as [E | E];
    repeat match goal with
      | |- context [Rle_dec ?a ?b] => destruct (Rle_dec a b); try lra
      | |- context [Rge_dec ?a ?b] => destruct (Rge_dec a b); try lra
      end;
    reflexivity.
Qed.

Lemma draw_default_ellipse :
  draw_orbit (mk_orbit 1.0 0.9) = Ok ((735%Z, 400%Z), (150%Z, 65%Z)).
Proof.
  destruct (drawn_id (mk_orbit 1.0 0.9)) as [A E];
    [rewrite IZR_SCALE; simpl; lra | simpl; lra |].
  rewrite draw_orbit_value, A, E by (rewrite E; simpl; lra).
  cbn [semi_major_axis eccentricity]. rewrite IZR_SCALE.
  assert (S : 65 / 150 <= sqrt (1 - 0.9 ^ 2) < 66 / 150)
    by (apply sqrt_between; lra).
  rewrite (trunc_nonneg _ 135), (trunc_nonneg _ 150), (trunc_nonneg _ 65);
    [reflexivity | lra ..].
Qed.

Lemma neo202136_drawn :
  draw_orbit neo202136 = Ok ((627%Z, 400%Z), (180%Z, 177%Z)).
Proof.
  destruct (drawn_id neo202136) as [A E];
    [rewrite IZR_SCALE; simpl; lra | simpl; lra |].
  rewrite draw_orbit_value, A, E by (rewrite E; simpl; lra).
  cbn [semi_major_axis eccentricity neo202136]. rewrite IZR_SCALE.
  assert (S : 177 / 180 <= sqrt (1 - 0.15 ^ 2) < 178 / 180)
    by (apply sqrt_between; lra).
  rewrite (trunc_nonneg _ 27), (trunc_nonneg _ 180), (trunc_nonneg _ 177);
    [reflexivity | lra ..].
Qed.

(** C2: the claim is violated by the program.  With eccentricity -2 the
    minor axis is the square root of -3, a NaN, and [int] raises
    ValueError before the ellipse is drawn. *)
Theorem C2_draw_orbit_raises_on_eccentricity_below_minus_1 :
  draw_orbit (mk_orbit 1 (-2)) = Raise ValueError.
Proof.
  apply draw_orbit_raises. simpl. lra.
Qed.

(** C4: [draw_orbit] treats a scaled axis at or below 0 as 1.0 * scale and
    an eccentricity at or above 1.0 as 0.9; the degenerate elements
    a = 0, e = 1.0 give the ellipse of a = 1.0, e = 0.9 and no exception. *)
Theorem C4_degenerate_elements_substituted :
  (forall p : orbit_params, draw_orbit p = draw_orbit (Spec.sanitize p))
  /\ (forall p : orbit_params,
        0 < semi_major_axis (Spec.sanitize p) * IZR SCALE
        /\ eccentricity (Spec.sanitize p) < 1)
  /\ Spec.sanitize (mk_orbit 0 1.0) = mk_orbit 1.0 0.9
  /\ draw_orbit (mk_orbit 0 1.0) = draw_orbit (mk_orbit 1.0 0.9)
  /\ draw_orbit (mk_orbit 0 1.0) = Ok ((735%Z, 400%Z), (150%Z, 65%Z)).
Proof.
  assert (D : Spec.sanitize (mk_orbit 0 1.0) = mk_orbit 1.0 0.9).
  { unfold Spec.sanitize; simpl.
    destruct (Rle_dec (0 * IZR SCALE) 0); [| lra].
    destruct (Rle_dec 1.0 1.0); [reflexivity | lra]. }
  split; [intros p; symmetry; apply draw_orbit_sanitize |].
  split.
  { intros p. unfold Spec.sanitize; simpl. rewrite IZR_SCALE.
    destruct (Rle_dec _ 0), (Rle_dec 1.0 _); lra. }
  split; [exact D |].
  rewrite <- (draw_orbit_sanitize (mk_orbit 0 1.0)), D.
  split; [reflexivity | apply draw_default_ellipse].
Qed.

(** ** The angle update *)

Lemma speed_factor_spec (p : orbit_params) :
  speed_factor p = 0.01 / Rmax (semi_major_axis p) 0.1.
Proof. unfold speed_factor. now rewrite max_is_Rmax. Qed.


Lemma Rmax_above_floor (a : R) : 0.1 <= a -> Rmax a 0.1 = a.
Proof. intros H. now apply Rmax_left. Qed.

(** ** Further properties of the geometry *)

Lemma trunc_sign (x : R) :
  (0 <= x -> (0 <= trunc x)%Z) /\ (x <= 0 -> (trunc x <= 0)%Z).
Proof.
  destruct (trunc_bounds x) as [P N]. split; intros H.
  - destruct (P H) as [_ U]. apply Z.lt_succ_r, lt_IZR.
    rewrite succ_IZR. lra.
  - destruct (N H) as [L _]. apply Z.lt_succ_r, lt_IZR.
    rewrite succ_IZR. simpl. lra.
Qed.

Lemma trunc_le (x y : R) : x <= y -> (trunc x <= trunc y)%Z.
Proof.
  intros H.
  destruct (trunc_bounds x) as [Px Nx], (trunc_bounds y) as [Py Ny].
  destruct (Rle_dec 0 x) as [X | X].
  - destruct (Px X), (Py ltac:(lra)).
    apply Z.lt_succ_r, lt_IZR. rewrite succ_IZR. lra.
  - destruct (Rle_dec 0 y) as [Y | Y].
    + destruct (trunc_sign x) as [_ Sx], (trunc_sign y) as [Sy _].
      specialize (Sx ltac:(lra)). specialize (Sy Y). lia.
    + destruct (Nx ltac:(lra)), (Ny ltac:(lra)).
      apply Z.lt_succ_r, lt_IZR. rewrite succ_IZR. lra.
Qed.

(** Truncation moves a value toward zero. *)
Lemma trunc_abs (x : R) : Rabs (IZR (trunc x)) <= Rabs x.
Proof.
  destruct (trunc_bounds x) as [P N], (trunc_sign x) as [Sp Sn].
  destruct (Rle_dec 0 x) as [X | X].
  - destruct (P X). pose proof (IZR_le _ _ (Sp X)).
    rewrite !Rabs_pos_eq; lra.
  - destruct (N ltac:(lra)). pose proof (IZR_le _ _ (Sn ltac:(lra))).
    rewrite !Rabs_left1; lra.
Qed.


Lemma minor_axis_range (a e : R) :
  0 < a -> -1 <= e < 1 -> 0 <= a * sqrt (1 - e ^ 2) <= a.
Proof.
  intros Ha He.
  assert (S : 0 <= sqrt (1 - e ^ 2) <= 1).
  { split; [apply sqrt_pos |].
    rewrite <- sqrt_1 at 2. apply sqrt_le_1_alt. nra. }
  split; [apply Rmult_le_pos; lra |].
  rewrite <- (Rmult_1_r a) at 2. apply Rmult_le_compat_l; lra.
Qed.

(** X2: whenever [draw_orbit] draws, the axes it passes on satisfy
    0 <= minor <= major and the centre is on the horizontal line through
    the sun. *)
Theorem X2_drawn_axes_ordered (p : orbit_params) (c : Z * Z) (ax bx : Z) :
  draw_orbit p = Ok (c, (ax, bx)) ->
  (0 <= bx <= ax)%Z /\ snd c = snd CENTER.
Proof.
  intros H.
  destruct (Rlt_dec (eccentricity p) (-1)) as [L | G].
  { rewrite (draw_orbit_raises p L) in H. discriminate H. }
  assert (D : -1 <= drawn_e p).
  { unfold drawn_e. destruct (Rge_dec _ _); lra. }
  rewrite (draw_orbit_value p D) in H. injection H as <- <- <-.
  destruct (drawn_ranges p) as [Ha He].
  destruct (minor_axis_range (drawn_a_pixels p) (drawn_e p)) as [Lo Hi];
    [lra | lra |].
  repeat split.
  - apply trunc_sign. exact Lo.
  - apply trunc_le. exact Hi.
Qed.

Lemma X2_drawn_axes_ordered_witness :
  (0 <= 177 <= 180)%Z /\ snd (627%Z, 400%Z) = snd CENTER.
Proof.
  exact (X2_drawn_axes_ordered neo202136 (627%Z, 400%Z) 180 177
           neo202136_drawn).
Defined.

Lemma pos_radius_range (p : orbit_params) (angle : R) :
  let r := pos_a p * (1 - pos_e p ^ 2) / pos_den p angle in
  0 < r <= pos_a p * (1 + pos_e p).
Proof.
  intros r.
  pose proof (pos_a_floor p) as [Ha _].
  pose proof (pos_e_range p) as He.
  pose proof (pos_den_bounds p angle) as [[_ Hl] _].
  assert (Hd : 0 < pos_den p angle) by lra.
  assert (Hn : 0 < pos_a p * (1 - pos_e p ^ 2)).
  { apply Rmult_lt_0_compat; [lra |].
    replace (1 - pos_e p ^ 2) with ((1 - pos_e p) * (1 + pos_e p)) by ring.
    apply Rmult_lt_0_compat; lra. }
  split; [apply Rdiv_lt_0_compat; assumption |].
  apply Rmult_le_reg_r with (pos_den p angle); [exact Hd |].
  unfold r. replace (pos_a p * (1 - pos_e p ^ 2) / pos_den p angle
                     * pos_den p angle)
    with (pos_a p * (1 + pos_e p) * (1 - pos_e p)) by (field; lra).
  apply Rmult_le_compat_l; [| exact Hl].
  apply Rmult_le_pos; lra.
Qed.

Lemma Rabs_bound_inv (a b : R) : Rabs a <= b -> - b <= a <= b.
Proof.
  unfold Rabs. destruct (Rcase_abs a); lra.
Qed.

Lemma scaled_offset_bound (r c B : R) :
  0 < r <= B -> -1 <= c <= 1 ->
  Rabs (IZR (trunc (r * c * IZR SCALE))) <= B * IZR SCALE.
Proof.
  intros Hr Hc. rewrite IZR_SCALE.
  eapply Rle_trans; [apply trunc_abs |].
  apply Rabs_le. split; nra.
Qed.

(** ** Statements with room for rounding

    The statements of this part are proved on the real-number reading of
    the code and are worded so that the rounding of binary64 cannot cross
    them: the axis is bounded so that no product overflows, inequalities
    are weak or carry a margin of several pixels or a relative tolerance of
    1e-9, against rounding errors of a few units in 1e16. *)












(** ** The guarded program against the unguarded variant *)

(** X9: on elements inside the clamp ranges (a >= 0.1, 0 <= e <= 0.99) the
    clamps do nothing: [calculate_position] of [asteroid_tracker.py] and the
    unguarded one of [ui3.py] return the same pixel at every angle. *)
Theorem X9_variants_agree_inside_clamps (p : orbit_params) (angle : R) :
  0.1 <= semi_major_axis p ->
  0 <= eccentricity p <= 0.99 ->
  Ui3.calculate_position p angle = calculate_position p angle.
Proof.
  intros Ha He.
  unfold Ui3.calculate_position, calculate_position, pos_r, pos_den.
  now rewrite (pos_a_id p Ha), (pos_e_id p He).
Qed.

Lemma X9_variants_agree_inside_clamps_witness :
  Ui3.calculate_position eros PI = calculate_position eros PI.
Proof.
  apply (X9_variants_agree_inside_clamps eros PI); simpl; lra.
Defined.

(** X12: the angle update of [ui3.py] raises ZeroDivisionError exactly for
    a semi-major axis of 0; from the floor 0.1 upward it stores the same
    angle as the guarded update of [asteroid_tracker.py]. *)
Theorem X12_unguarded_update (angle : R) (p : orbit_params) :
  (Ui3.next_angle angle p = Ui3.ZeroDivisionError <-> semi_major_axis p = 0)
  /\ (0.1 <= semi_major_axis p ->
      Ui3.next_angle angle p = Ui3.Advanced (next_angle angle p)).
Proof.
  unfold Ui3.next_angle, next_angle.
  destruct (Req_dec_T (semi_major_axis p) 0) as [Z | NZ].
  - repeat split; try tauto; try lra.
  - repeat split; try tauto; try discriminate.
    intros H. rewrite speed_factor_spec, Rmax_above_floor by exact H.
    reflexivity.
Qed.

Lemma X12_unguarded_update_witness :
  Ui3.next_angle 0 eros = Ui3.Advanced (next_angle 0 eros).
Proof.
  apply (proj2 (X12_unguarded_update 0 eros)). simpl. lra.
Defined.

(** ** Simulated records *)

Lemma all_digits_app (s t : string) :
  all_digits (s ++ t) = (all_digits s && all_digits t)%bool.
Proof.
  induction s as [| c s IH]; simpl; [reflexivity |].
  now rewrite IH, Bool.andb_assoc.
Qed.

Lemma int_digits_app (acc : Z) (s : string) (c : ascii) :
  int_digits acc (s ++ String c EmptyString) =
  (10 * int_digits acc s + digit_value c)%Z.
Proof.
  revert acc. induction s as [| c0 s IH]; intros acc; simpl.
  - reflexivity.
  - apply IH.
Qed.

Lemma digit_value_range (c : ascii) :
  is_digit_char c = true -> (0 <= digit_value c <= 9)%Z.
Proof.
  unfold is_digit_char, digit_value. intros H.
  apply Bool.andb_true_iff in H as [L U].
  apply Nat.leb_le in L. apply Nat.leb_le in U. lia.
Qed.

Lemma simulated_data_digits (asteroid_id : string) (t : string * orbit_params * R) :
  simulated_data asteroid_id = Some t ->
  isdigit asteroid_id = true
  /\ (snd (fst t) = eros \/ snd (fst t) = bennu \/ snd (fst t) = neo202136).
Proof.
  unfold simulated_data.
  destruct (String.eqb asteroid_id "433") eqn:E1.
  { apply String.eqb_eq in E1 as ->. intros [= <-]. simpl. auto. }
  destruct (String.eqb asteroid_id "2000216") eqn:E2.
  { apply String.eqb_eq in E2 as ->. intros [= <-]. simpl. auto. }
  destruct (String.eqb asteroid_id "202136") eqn:E3.
  { apply String.eqb_eq in E3 as ->. intros [= <-]. simpl. auto. }
  discriminate.
Qed.

Lemma last_digit_of_digits (s : string) (c : ascii) :
  isdigit (s ++ String c EmptyString) = true ->
  (int_of_str (s ++ String c EmptyString) mod 10 = digit_value c)%Z.
Proof.
  intros D.
  assert (C : (0 <= digit_value c <= 9)%Z).
  { apply digit_value_range.
    assert (A : all_digits (s ++ String c EmptyString) = true).
    { unfold isdigit in D.
      destruct (s ++ String c EmptyString)%string; [discriminate | exact D]. }
    rewrite all_digits_app in A.
    apply Bool.andb_true_iff in A as [_ A]. simpl in A.
    now rewrite Bool.andb_true_r in A. }
  unfold int_of_str. rewrite int_digits_app.
  rewrite Z.add_comm, Z.mul_comm, Z.mod_add by lia.
  apply Z.mod_small. lia.
Qed.

(** X16: two identifiers made of ASCII digits (at most 4300 of them, the
    longest text [int] converts), neither in the table, that end in the
    same digit get the same simulated elements and inclination: only the
    last digit of the identifier is used. *)
Theorem X16_simulated_elements_from_last_digit (s1 s2 : string) (c : ascii) :
  let id1 := (s1 ++ String c EmptyString)%string in
  let id2 := (s2 ++ String c EmptyString)%string in
  isdigit id1 = true -> isdigit id2 = true ->
  (String.length id1 <= 4300)%nat -> (String.length id2 <= 4300)%nat ->
  simulated_data id1 = None -> simulated_data id2 = None ->
  params (create_simulated_asteroid id1) = params (create_simulated_asteroid id2)
  /\ inclination (create_simulated_asteroid id1)
     = inclination (create_simulated_asteroid id2).
Proof.
  intros id1 id2 D1 D2 _ _ T1 T2.
  unfold create_simulated_asteroid. rewrite T1, T2, D1, D2.
  unfold id1, id2.
  rewrite (last_digit_of_digits s1 c D1), (last_digit_of_digits s2 c D2).
  split; reflexivity.
Qed.

Lemma X16_simulated_elements_from_last_digit_witness :
  params (create_simulated_asteroid "99942")
  = params (create_simulated_asteroid "12")
  /\ inclination (create_simulated_asteroid "99942")
     = inclination (create_simulated_asteroid "12").
Proof.
  apply (X16_simulated_elements_from_last_digit "9994" "1" "2");
    try reflexivity; simpl; lia.
Defined.

(** X17: an ASCII identifier that is not made of digits only (the empty
    one included) is never in the table and gets the fixed elements
    a = 2.0, e = 0.2, inclination 8.0 under the name
    'Asteroid <id> (Simulated)'. *)
Theorem X17_simulated_elements_non_digit (asteroid_id : string) :
  is_ascii asteroid_id = true ->
  isdigit asteroid_id = false ->
  create_simulated_asteroid asteroid_id =
  mk_asteroid ("Asteroid " ++ asteroid_id ++ " (Simulated)")%string
    asteroid_id (mk_orbit 2.0 0.2) 8.0 "Simulated" "simulated".
Proof.
  intros _ D. unfold create_simulated_asteroid.
  destruct (simulated_data asteroid_id) as [t |] eqn:T.
  - apply simulated_data_digits in T as [T _]. congruence.
  - now rewrite D.
Qed.

Lemma X17_simulated_elements_non_digit_witness :
  create_simulated_asteroid "test" =
  mk_asteroid "Asteroid test (Simulated)" "test" (mk_orbit 2.0 0.2) 8.0
    "Simulated" "simulated".
Proof.
  apply (X17_simulated_elements_non_digit "test"); reflexivity.
Defined.

(** ** Conversion of fetched elements *)

Section Conversion.

(** [float] on strings, with the fact about it the statements use:
    [float('0')] is 0. *)
Variable py_float : string -> option R.
Hypothesis float_zero : py_float "0" = Some 0.

Variable orbit_data : dict.

Lemma float_or_nonempty (s : string) (default : R) :
  s <> EmptyString -> float_or py_float s default = py_float s.
Proof.
  destruct s; [congruence | reflexivity].
Qed.

(** X18: when the key 'a' is missing from the orbit object and the other
    two elements convert, the semi-major axis is 0 (the text default '0'
    is converted, the numeric default 1.0 is not used) and the record is
    labelled 'simulated'. *)
Theorem X18_missing_axis_is_zero (e i : R) :
  lookup orbit_data "a" = None ->
  float_or py_float (get orbit_data "e" "0") 0.1 = Some e ->
  float_or py_float (get orbit_data "i" "0") 5.0 = Some i ->
  fetched_elements py_float orbit_data = (0, e, i)
  /\ quality_of (fst (fst (fetched_elements py_float orbit_data)))
     = "simulated"%string.
Proof.
  intros A E I.
  assert (F : fetched_elements py_float orbit_data = (0, e, i)).
  { unfold fetched_elements.
    replace (get orbit_data "a" "0") with "0"%string
      by (unfold get; now rewrite A).
    rewrite E, I. simpl float_or. now rewrite float_zero. }
  rewrite F. split; [reflexivity |].
  unfold quality_of. simpl. destruct (Rlt_dec 0 0); [lra | reflexivity].
Qed.

(** X19: when one of the three element texts is non-empty and is not a
    number, all three elements become the defaults 1.0, 0.1 and 5.0, the
    valid ones included, and the record is labelled 'real'. *)
Theorem X19_one_bad_element_resets_all (key : string) :
  key = "a"%string \/ key = "e"%string \/ key = "i"%string ->
  get orbit_data key "0" <> EmptyString ->
  py_float (get orbit_data key "0") = None ->
  fetched_elements py_float orbit_data = (1.0, 0.1, 5.0)
  /\ quality_of (fst (fst (fetched_elements py_float orbit_data)))
     = "real"%string.
Proof.
  intros K N P.
  assert (B : forall default,
             float_or py_float (get orbit_data key "0") default = None).
  { intros default. now rewrite float_or_nonempty. }
  assert (F : fetched_elements py_float orbit_data = (1.0, 0.1, 5.0)).
  { unfold fetched_elements.
    destruct K as [-> | [-> | ->]]; rewrite ?B;
      repeat match goal with
        | |- context [float_or py_float ?s ?d] =>
            destruct (float_or py_float s d)
        end; reflexivity. }
  rewrite F. split; [reflexivity |].
  unfold quality_of. simpl. destruct (Rlt_dec 0 1.0); [reflexivity | lra].
Qed.

(** X21: the conversion of [api.py] raises ValueError exactly when a
    present element text is not a number; a missing key never raises. *)
Theorem X21_api_conversion_raises_iff :
  Api.fetched_elements py_float orbit_data = Raise ValueError
  <-> exists key s,
        (key = "a"%string \/ key = "e"%string \/ key = "i"%string)
        /\ lookup orbit_data key = Some s /\ py_float s = None.
Proof.
  unfold Api.fetched_elements, Api.element. split.
  - destruct (lookup orbit_data "a") as [sa |] eqn:A.
    + destruct (py_float sa) eqn:Pa;
        [| intros _; exists "a"%string, sa; auto].
      destruct (lookup orbit_data "e") as [se |] eqn:E.
      * destruct (py_float se) eqn:Pe;
          [| intros _; exists "e"%string, se; auto].
        destruct (lookup orbit_data "i") as [si |] eqn:I.
        -- destruct (py_float si) eqn:Pi; [discriminate |].
           intros _. exists "i"%string, si. auto.
        -- discriminate.
      * destruct (lookup orbit_data "i") as [si |] eqn:I.
        -- destruct (py_float si) eqn:Pi; [discriminate |].
           intros _. exists "i"%string, si. auto.
        -- discriminate.
    + destruct (lookup orbit_data "e") as [se |] eqn:E.
      * destruct (py_float se) eqn:Pe;
          [| intros _; exists "e"%string, se; auto].
        destruct (lookup orbit_data "i") as [si |] eqn:I.
        -- destruct (py_float si) eqn:Pi; [discriminate |].
           intros _. exists "i"%string, si. auto.
        -- discriminate.
      * destruct (lookup orbit_data "i") as [si |] eqn:I.
        -- destruct (py_float si) eqn:Pi; [discriminate |].
           intros _. exists "i"%string, si. auto.
        -- discriminate.
  - intros (key & s & K & L & P).
    destruct K as [-> | [-> | ->]]; rewrite L, P; simpl;
      repeat match goal with
        | |- context [lookup orbit_data ?k] =>
            destruct (lookup orbit_data k)
        | |- context [py_float ?t] => destruct (py_float t)
        end; reflexivity.
Qed.

End Conversion.

Lemma sample_float_zero : sample_float "0" = Some 0.
Proof. reflexivity. Qed.

Lemma X18_missing_axis_is_zero_witness :
  fetched_elements sample_float [("e", "0.23"); ("i", "10.8")]%string
    = (0, 0.23, 10.8)
  /\ quality_of
       (fst (fst (fetched_elements sample_float
                    [("e", "0.23"); ("i", "10.8")]%string)))
     = "simulated"%string.
Proof.
  apply (X18_missing_axis_is_zero sample_float sample_float_zero
           [("e", "0.23"); ("i", "10.8")]%string 0.23 10.8);
    reflexivity.
Defined.

Lemma X19_one_bad_element_resets_all_witness :
  fetched_elements sample_float [("a", "1.46"); ("e", "abc")]%string
    = (1.0, 0.1, 5.0)
  /\ quality_of
       (fst (fst (fetched_elements sample_float
                    [("a", "1.46"); ("e", "abc")]%string)))
     = "real"%string.
Proof.
  apply (X19_one_bad_element_resets_all sample_float
           [("a", "1.46"); ("e", "abc")]%string "e");
    [auto | discriminate | reflexivity].
Defined.

(** ** The two substitution policies together *)

(** X22: for a semi-major axis at or below 0 (and an eccentricity of at
    least -1) the two functions disagree on the size of the orbit: the
    outline is drawn with a major axis of 150 pixels (1 AU), while the
    marker, computed with the 0.1 AU floor, stays within 29 pixels of the
    sun on both axes at every angle. *)
Theorem X22_nonpositive_axis_policies (p : orbit_params) (angle : R) :
  semi_major_axis p <= 0 ->
  -1 <= eccentricity p ->
  exists (c : Z * Z) (bx x y : Z),
    draw_orbit p = Ok (c, (150%Z, bx))
    /\ calculate_position p angle = Ok (x, y)
    /\ (Z.abs (x - fst CENTER) <= 29)%Z
    /\ (Z.abs (y - snd CENTER) <= 29)%Z.
Proof.
  intros Ha He.
  assert (D : -1 <= drawn_e p).
  { unfold drawn_e. destruct (Rge_dec _ _); lra. }
  assert (A : drawn_a_pixels p = 150).
  { unfold drawn_a_pixels. rewrite IZR_SCALE.
    destruct (Rle_dec _ _); lra. }
  assert (Pa : pos_a p = 0.1).
  { unfold pos_a, Py.max. destruct (Rlt_dec _ _); lra. }
  rewrite (draw_orbit_value p D), calculate_position_value, A.
  rewrite (trunc_IZR 150).
  set (r := pos_a p * (1 - pos_e p ^ 2) / pos_den p angle).
  pose proof (pos_radius_range p angle) as Hr. fold r in Hr.
  pose proof (pos_e_range p) as Pe. rewrite Pa in Hr.
  assert (Hb : 0 < r <= 0.1 * 1.99) by lra.
  pose proof (scaled_offset_bound r (cos angle) _ Hb (COS_bound angle)) as Hx.
  pose proof (scaled_offset_bound r (sin angle) _ Hb (SIN_bound angle)) as Hy.
  set (dx := trunc (r * cos angle * IZR SCALE)) in *.
  set (dy := trunc (r * sin angle * IZR SCALE)) in *.
  rewrite IZR_SCALE in Hx, Hy.
  assert (Bx : (-30 < dx < 30)%Z).
  { apply Rabs_bound_inv in Hx. split; apply lt_IZR; lra. }
  assert (By : (-30 < dy < 30)%Z).
  { apply Rabs_bound_inv in Hy. split; apply lt_IZR; lra. }
  do 4 eexists. repeat split; lia.
Qed.

Lemma X22_nonpositive_axis_policies_witness :
  exists (c : Z * Z) (bx x y : Z),
    draw_orbit (mk_orbit 0 1.0) = Ok (c, (150%Z, bx))
    /\ calculate_position (mk_orbit 0 1.0) 0 = Ok (x, y)
    /\ (Z.abs (x - fst CENTER) <= 29)%Z
    /\ (Z.abs (y - snd CENTER) <= 29)%Z.
Proof.
  apply (X22_nonpositive_axis_policies (mk_orbit 0 1.0) 0); simpl; lra.
Defined.


(** ** Facts about binary64 arithmetic *)

Section Binary64.

Lemma f64_is_nan (x : PrimFloat.float) :
  is_nan x = match Prim2SF x with S754_nan => true | _ => false end.
Proof.
  unfold is_nan. rewrite FloatAxioms.eqb_spec. unfold SFeqb.
  destruct (Prim2SF x) as [s | s | | s m e]; try (destruct s; reflexivity).
  - reflexivity.
  - destruct s; simpl; rewrite Z.compare_refl, Pos.compare_cont_refl;
      reflexivity.
Qed.

Lemma f64_is_infinity (x : PrimFloat.float) :
  is_infinity x =
  match Prim2SF x with S754_infinity _ => true | _ => false end.
Proof.
  unfold is_infinity. rewrite FloatAxioms.eqb_spec, abs_spec.
  change (Prim2SF PrimFloat.infinity) with (S754_infinity false).
  destruct (Prim2SF x) as [s | s | | s m e]; reflexivity.
Qed.

Lemma f64_is_finite (x : PrimFloat.float) :
  is_finite x =
  match Prim2SF x with
  | S754_nan | S754_infinity _ => false
  | _ => true
  end.
Proof.
  unfold is_finite. rewrite f64_is_nan, f64_is_infinity.
  destruct (Prim2SF x); reflexivity.
Qed.

Lemma f64_is_zero (x : PrimFloat.float) :
  is_zero x = match Prim2SF x with S754_zero _ => true | _ => false end.
Proof.
  unfold is_zero. rewrite FloatAxioms.eqb_spec.
  change (Prim2SF PrimFloat.zero) with (S754_zero false).
  destruct (Prim2SF x) as [s | s | | s m e]; try reflexivity;
    destruct s; reflexivity.
Qed.

(** *** Signs *)

Lemma binary_round_aux_opp (s : bool) (m e : Z) (l : location) :
  binary_round_aux prec emax (negb s) m e l =
  SFopp (binary_round_aux prec emax s m e l).
Proof.
  unfold binary_round_aux.
  destruct (shr_fexp prec emax m e l) as [mrs' e'].
  destruct (shr_fexp _ _ _ e' loc_Exact) as [mrs'' e''].
  destruct (shr_m mrs''); try reflexivity.
  destruct (Z.leb e'' (emax - prec)); reflexivity.
Qed.

Lemma xorb_negb_right (a b : bool) : xorb a (negb b) = negb (xorb a b).
Proof. destruct a, b; reflexivity. Qed.

Lemma xorb_negb_left (a b : bool) : xorb (negb a) b = negb (xorb a b).
Proof. destruct a, b; reflexivity. Qed.

Lemma SFmul_opp_r (x y : spec_float) :
  SF64mul x (SFopp y) = SFopp (SF64mul x y).
Proof.
  unfold SF64mul.
  destruct x as [sx | sx | | sx mx ex], y as [sy | sy | | sy my ey];
    simpl; rewrite ?xorb_negb_right; try reflexivity.
  apply binary_round_aux_opp.
Qed.

Lemma SFmul_opp_l (x y : spec_float) :
  SF64mul (SFopp x) y = SFopp (SF64mul x y).
Proof.
  unfold SF64mul.
  destruct x as [sx | sx | | sx mx ex], y as [sy | sy | | sy my ey];
    simpl; rewrite ?xorb_negb_left; try reflexivity.
  apply binary_round_aux_opp.
Qed.

Lemma f64_mul_opp_r (x y : PrimFloat.float) : (x * - y = - (x * y))%float.
Proof.
  apply Prim2SF_inj. rewrite opp_spec, !mul_spec, opp_spec.
  apply SFmul_opp_r.
Qed.

Lemma f64_mul_opp_l (x y : PrimFloat.float) : (- x * y = - (x * y))%float.
Proof.
  apply Prim2SF_inj. rewrite opp_spec, !mul_spec, opp_spec.
  apply SFmul_opp_l.
Qed.

Lemma f64_int_opp (v : PrimFloat.float) :
  B64.int (- v) =
  match B64.int v with
  | B64.Ok z => B64.Ok (- z)%Z
  | B64.Raise e => B64.Raise e
  end.
Proof.
  unfold B64.int. rewrite opp_spec.
  destruct (Prim2SF v) as [s | s | | s m e]; simpl; try reflexivity.
  destruct s; simpl; f_equal; lia.
Qed.

(** *** Multiplication by one and by zero *)

Lemma digits_shift52 (m : positive) :
  Zpos (digits2_pos (Pos.mul 4503599627370496 m)) =
  (Zpos (digits2_pos m) + 52)%Z.
Proof.
  cbn [Pos.mul digits2_pos].
  repeat rewrite Pos2Z.inj_succ. lia.
Qed.

Lemma shr_shift52 (m : positive) (e : Z) :
  shr {| shr_m := Zpos (Pos.mul 4503599627370496 m);
         shr_r := false; shr_s := false |} e 52
  = ({| shr_m := Zpos m; shr_r := false; shr_s := false |}, (e + 52)%Z).
Proof. reflexivity. Qed.

Lemma shr_fexp_shifted (m : positive) (e : Z) :
  fexp prec emax (Zpos (digits2_pos m) + e) = e ->
  shr_fexp prec emax (Zpos (Pos.mul m 4503599627370496)) (e + -52) loc_Exact
  = ({| shr_m := Zpos m; shr_r := false; shr_s := false |}, e).
Proof.
  intros H. unfold shr_fexp.
  rewrite Pos.mul_comm. unfold Zdigits2. rewrite digits_shift52.
  replace (Z.pos (digits2_pos m) + 52 + (e + -52))%Z
    with (Z.pos (digits2_pos m) + e)%Z by lia.
  rewrite H. replace (e - (e + -52))%Z with 52%Z by lia.
  unfold shr_record_of_loc. rewrite shr_shift52. f_equal. lia.
Qed.

Lemma shr_fexp_canonical (m : positive) (e : Z) :
  fexp prec emax (Zpos (digits2_pos m) + e) = e ->
  shr_fexp prec emax (Zpos m) e loc_Exact
  = ({| shr_m := Zpos m; shr_r := false; shr_s := false |}, e).
Proof.
  intros H. unfold shr_fexp, Zdigits2. rewrite H, Z.sub_diag. reflexivity.
Qed.

Lemma SFmul_1_r (x : spec_float) :
  valid_binary x = true ->
  SF64mul x (S754_finite false 4503599627370496 (-52)) = x.
Proof.
  intros V. destruct x as [s | s | | s m e]; simpl;
    rewrite ?Bool.xorb_false_r; try reflexivity.
  simpl in V. unfold bounded, canonical_mantissa in V.
  apply andb_prop in V as [C B]. apply Z.eqb_eq in C.
  unfold binary_round_aux.
  rewrite (shr_fexp_shifted m e C). simpl round_nearest_even.
  rewrite (shr_fexp_canonical m e C). simpl shr_m.
  now rewrite B.
Qed.

Lemma f64_mul_1_r (x : PrimFloat.float) : (x * 1 = x)%float.
Proof.
  apply Prim2SF_inj. rewrite mul_spec.
  change (Prim2SF 1) with (S754_finite false 4503599627370496 (-52)).
  apply SFmul_1_r, Prim2SF_valid.
Qed.


(** *** Products that cannot overflow *)

Lemma digits2_pos_size (p : positive) : digits2_pos p = Pos.size p.
Proof. induction p; simpl; congruence. Qed.

Lemma digits_log2 (p : positive) :
  Zpos (digits2_pos p) = (Z.log2 (Zpos p) + 1)%Z.
Proof.
  rewrite digits2_pos_size. destruct p; simpl; lia.
Qed.

Lemma Zdigits2_le (a b : Z) :
  (0 <= a <= b)%Z -> (Zdigits2 a <= Zdigits2 b)%Z.
Proof.
  intros [Ha Hab]. destruct a as [| a | a]; [| | lia].
  - destruct b; simpl; lia.
  - destruct b as [| b | b]; try lia. simpl.
    rewrite !digits_log2. apply Z.add_le_mono_r, Z.log2_le_mono. exact Hab.
Qed.

Lemma Zdigits2_succ (p : positive) :
  (Zdigits2 (Zpos p + 1) <= Zpos (digits2_pos p) + 1)%Z.
Proof.
  replace (Zpos p + 1)%Z with (Zpos (p + 1)) by lia. unfold Zdigits2.
  rewrite (digits_log2 (p + 1)), (digits_log2 p).
  pose proof (Z.log2_succ_le (Zpos p)) as H.
  replace (Z.succ (Zpos p)) with (Zpos (p + 1)) in H by lia. lia.
Qed.

Lemma digits_mul (p q : positive) :
  (Zpos (digits2_pos (p * q))
   <= Zpos (digits2_pos p) + Zpos (digits2_pos q))%Z.
Proof.
  rewrite !digits_log2, Pos2Z.inj_mul.
  pose proof (Z.log2_mul_above (Zpos p) (Zpos q) ltac:(lia) ltac:(lia)). lia.
Qed.

Lemma iter_pos_invariant {A : Type} (P : A -> Prop) (f : A -> A) :
  (forall x, P x -> P (f x)) ->
  forall n x, P x -> P (SpecFloat.iter_pos f n x).
Proof.
  intros Hf. induction n as [n IH | n IH |]; intros x Hx; simpl; auto.
Qed.

Lemma shr_1_bounds (M : Z) (mrs : shr_record) :
  (0 <= shr_m mrs <= M)%Z -> (0 <= shr_m (shr_1 mrs) <= M)%Z.
Proof.
  destruct mrs as [m r s]. simpl. intros H.
  destruct m as [| [p | p |] | [p | p |]]; simpl; lia.
Qed.

Lemma shr_bounds (M : Z) (mrs : shr_record) (e n : Z) :
  (0 <= shr_m mrs <= M)%Z ->
  (0 <= shr_m (fst (shr mrs e n)) <= M)%Z
  /\ snd (shr mrs e n) = Z.max e (e + n).
Proof.
  intros H. unfold shr. destruct n as [| p | p]; simpl.
  - split; [exact H | lia].
  - split; [| lia]. apply iter_pos_invariant; [apply shr_1_bounds | exact H].
  - split; [exact H | lia].
Qed.

Lemma round_nearest_even_bounds (m : Z) (l : location) :
  (m <= round_nearest_even m l <= m + 1)%Z.
Proof.
  destruct l as [| [ | | ]]; simpl; try lia.
  destruct (Z.even m); lia.
Qed.

Lemma shr_record_of_loc_m (m : Z) (l : location) :
  shr_m (shr_record_of_loc m l) = m.
Proof. destruct l as [| [ | | ]]; reflexivity. Qed.

Lemma fexp_eq (x : Z) : fexp prec emax x = Z.max (x - 53) (-1074).
Proof. reflexivity. Qed.

(** A mantissa of [d] digits at exponent [e] does not round to an infinity
    when [2 d + e] stays below the overflow threshold. *)
Lemma binary_round_aux_not_inf (s s' : bool) (m : positive) (e : Z)
  (l : location) :
  (Zpos (digits2_pos m) <= 1000)%Z ->
  (2 * Zpos (digits2_pos m) + e <= 1076)%Z ->
  (Zpos (digits2_pos m) + e <= 1022)%Z -> (e <= 900)%Z ->
  binary_round_aux prec emax s (Zpos m) e l <> S754_infinity s'.
Proof.
  intros Hd0 Hd2 Hd He. unfold binary_round_aux, shr_fexp.
  set (d := Zpos (digits2_pos m)) in *.
  change (Zdigits2 (Zpos m)) with d.
  pose proof (shr_bounds (Zpos m) (shr_record_of_loc (Zpos m) l) e
                (fexp prec emax (d + e) - e)) as [B1 E1].
  { rewrite shr_record_of_loc_m. lia. }
  destruct (shr (shr_record_of_loc (Zpos m) l) e (fexp prec emax (d + e) - e))
    as [mrs' e']. cbn [fst snd] in B1, E1.
  set (m1 := round_nearest_even (shr_m mrs') (loc_of_shr_record mrs')).
  pose proof (round_nearest_even_bounds (shr_m mrs') (loc_of_shr_record mrs'))
    as R.
  fold m1 in R.
  assert (D1 : (Zdigits2 m1 <= d + 1)%Z).
  { eapply Z.le_trans; [apply (Zdigits2_le m1 (Zpos m + 1)); lia |].
    apply Zdigits2_succ. }
  pose proof (shr_bounds m1 (shr_record_of_loc m1 loc_Exact) e'
                (fexp prec emax (Zdigits2 m1 + e') - e')) as [B2 E2].
  { cbn [shr_record_of_loc shr_m]. lia. }
  destruct (shr (shr_record_of_loc m1 loc_Exact) e'
              (fexp prec emax (Zdigits2 m1 + e') - e')) as [mrs'' e''].
  cbn [fst snd] in B2, E2.
  destruct (shr_m mrs''); try discriminate.
  assert (L : (e'' <= emax - prec)%Z).
  { subst e'' e'. rewrite !fexp_eq. unfold emax, prec.
    assert (0 < d)%Z by (unfold d; lia). lia. }
  apply Z.leb_le in L. rewrite L. discriminate.
Qed.

Lemma valid_digits (s : bool) (m : positive) (e : Z) :
  valid_binary (S754_finite s m e) = true ->
  (Zpos (digits2_pos m) <= 53)%Z.
Proof.
  simpl. unfold bounded, canonical_mantissa. intros V.
  apply andb_prop in V as [C _]. apply Z.eqb_eq in C.
  rewrite fexp_eq in C. lia.
Qed.

(** The square of a float of exponent at most 432 (a magnitude below
    2^485) is not an infinity, so [x ** 2] does not raise. *)
Lemma f64_pow2_small (x : PrimFloat.float) :
  match Prim2SF x with
  | S754_finite _ _ e => (e <= 432)%Z
  | _ => True
  end ->
  B64.pow2 x = B64.Ok (x * x)%float.
Proof.
  intros H. unfold B64.pow2.
  rewrite f64_is_finite, f64_is_infinity, mul_spec.
  pose proof (Prim2SF_valid x) as V.
  destruct (Prim2SF x) as [s | s | | s m e]; try reflexivity.
  pose proof (valid_digits s m e V) as D.
  pose proof (digits_mul m m) as DM.
  unfold SF64mul, SFmul.
  destruct (binary_round_aux prec emax (xorb s s) (Z.pos (m * m)) (e + e)
              loc_Exact) as [s0 | s0 | | s0 m0 e0] eqn:E; try reflexivity.
  exfalso. revert E. apply binary_round_aux_not_inf; lia.
Qed.

End Binary64.


(** ** The claims on the binary64 model *)

Section Binary64Claims.

Lemma f64_exponent_below_099 (e : PrimFloat.float) :
  (e <? 0)%float = false -> (0.99 <? e)%float = false ->
  match Prim2SF e with
  | S754_finite _ _ ex => (ex <= 432)%Z
  | _ => True
  end.
Proof.
  rewrite !FloatAxioms.ltb_spec.
  change (Prim2SF 0) with (S754_zero false).
  change (Prim2SF 0.99) with (S754_finite false 8917127262193582 (-53)).
  destruct (Prim2SF e) as [s | s | | s m ex]; trivial.
  destruct s; [discriminate |]. intros _.
  unfold SFltb, SFcompare.
  destruct (Z.compare_spec (-53) ex); try discriminate; lia.
Qed.


Lemma f64_pos_e_pow2 (p : B64.orbit_params) :
  B64.pow2 (B64.pos_e p) = B64.Ok (B64.pos_e p * B64.pos_e p)%float.
Proof.
  unfold B64.pos_e, B64.min, B64.max.
  destruct (B64.eccentricity p <? 0)%float eqn:L.
  - reflexivity.
  - destruct (0.99 <? B64.eccentricity p)%float eqn:U.
    + reflexivity.
    + apply f64_pow2_small, f64_exponent_below_099; assumption.
Qed.

Lemma b64_pos_r_value (p : B64.orbit_params) (c : PrimFloat.float) :
  B64.pos_r p c =
  B64.Ok ((B64.pos_a p * (1 - B64.pos_e p * B64.pos_e p))
          / (1 + B64.pos_e p * c))%float.
Proof.
  unfold B64.pos_r. now rewrite f64_pos_e_pow2.
Qed.








(** C9: with the trig values of the opposite angle (numpy's cos is even
    and its sin is odd: same cos, negated sin), [calculate_position]
    returns the same screen x and the opposite screen y offset from
    centre y; when one of the two calls raises, so does the other, with the
    same exception. *)
Theorem C9_mirror_image (p : B64.orbit_params)
  (cos_angle sin_angle : PrimFloat.float) :
  B64.calculate_position p cos_angle (- sin_angle)%float =
  match B64.calculate_position p cos_angle sin_angle with
  | B64.Ok (x, y) => B64.Ok (x, (snd CENTER - (y - snd CENTER))%Z)
  | B64.Raise e => B64.Raise e
  end.
Proof.
  unfold B64.calculate_position. rewrite b64_pos_r_value. cbn [B64.bind].
  set (r := ((B64.pos_a p * (1 - B64.pos_e p * B64.pos_e p))
             / (1 + B64.pos_e p * cos_angle))%float).
  destruct (B64.int (r * cos_angle * B64.SCALE)%float) as [dx | ex];
    cbn [B64.bind]; [| reflexivity].
  rewrite f64_mul_opp_r, f64_mul_opp_l, f64_int_opp.
  destruct (B64.int (r * sin_angle * B64.SCALE)%float) as [dy | ey];
    cbn [B64.bind]; [| reflexivity].
  f_equal. f_equal. lia.
Qed.




End Binary64Claims.

(** ** Further properties on the binary64 model *)

(** The closed results of the real-number development are those of
    binary64: Eros at angle 0, the eccentricity -2 and the degenerate
    elements a = 0, e = 1.0. *)
Lemma b64_table_inputs :
  B64.calculate_position B64.eros 1 0 = B64.Ok (768%Z, 400%Z)
  /\ B64.draw_orbit (B64.mk_orbit 1 (-2)) = B64.Raise B64.ValueError
  /\ B64.draw_orbit (B64.mk_orbit 0 1.0)
     = B64.Ok ((735%Z, 400%Z), (150%Z, 65%Z))
  /\ B64.draw_orbit (B64.mk_orbit 1.0 0.9)
     = B64.Ok ((735%Z, 400%Z), (150%Z, 65%Z))
  /\ B64.draw_orbit B64.neo202136 = B64.Ok ((627%Z, 400%Z), (180%Z, 177%Z)).
Proof.
  repeat split; reflexivity.
Qed.

Lemma f64_int_times_zero (v : PrimFloat.float) (k : Z) :
  B64.int v = B64.Ok k -> B64.int (v * 0)%float = B64.Ok 0%Z.
Proof.
  unfold B64.int. rewrite mul_spec.
  change (Prim2SF 0) with (S754_zero false).
  destruct (Prim2SF v) as [s | s | | s m e]; simpl;
    try discriminate; reflexivity.
Qed.

(** X3: with eccentricity 0, whenever the major axis converts to an
    integer, the orbit is drawn as a circle centred on the sun: both axes
    are that integer and the centre is [CENTER]. *)
Theorem X3_circular_orbit (p : B64.orbit_params) (k : Z) :
  let a_pixels := (B64.semi_major_axis p * B64.SCALE)%float in
  let a_pixels :=
    if (a_pixels <=? 0)%float then (1.0 * B64.SCALE)%float else a_pixels in
  B64.eccentricity p = 0%float ->
  B64.int a_pixels = B64.Ok k ->
  B64.draw_orbit p = B64.Ok (CENTER, (k, k)).
Proof.
  intros a0 a_pixels E K. unfold B64.draw_orbit. rewrite E.
  fold a0. fold a_pixels.
  change (if (1.0 <=? 0)%float then 0.9%float else 0%float) with 0%float.
  change (B64.pow2 0) with (B64.Ok 0%float). cbn [B64.bind].
  change (PrimFloat.sqrt (1 - 0)) with 1%float.
  rewrite f64_mul_1_r, (f64_int_times_zero a_pixels k K), K.
  reflexivity.
Qed.

Lemma X3_circular_orbit_witness :
  B64.draw_orbit (B64.mk_orbit 1 0) = B64.Ok (CENTER, (150%Z, 150%Z)).
Proof.
  apply (X3_circular_orbit (B64.mk_orbit 1 0) 150); reflexivity.
Defined.

Lemma SFdiv_by_zero (x : spec_float) (s : bool) :
  match SF64div x (S754_zero s) with
  | S754_nan | S754_infinity _ => True
  | _ => False
  end.
Proof. destruct x; exact I. Qed.

Lemma SFmul_not_finite (x y : spec_float) :
  match x with S754_nan | S754_infinity _ => True | _ => False end ->
  match SF64mul x y with
  | S754_nan | S754_infinity _ => True
  | _ => False
  end.
Proof. destruct x, y; simpl; tauto. Qed.

Lemma f64_int_not_finite (v : PrimFloat.float) :
  match Prim2SF v with S754_nan | S754_infinity _ => True | _ => False end ->
  B64.int v = B64.Raise B64.ValueError
  \/ B64.int v = B64.Raise B64.OverflowError.
Proof.
  unfold B64.int. destruct (Prim2SF v); intros H; tauto.
Qed.

(** X10: when the binary64 denominator 1 + e cos of the unclamped
    [calculate_position] of [ui3.py] is a zero, the call raises: the radius
    is a NaN or an infinity and [int] rejects it (or the square of e has
    already overflowed). *)
Theorem X10_unguarded_position_raises (p : B64.orbit_params)
  (cos_angle sin_angle : PrimFloat.float) :
  is_zero (1 + B64.eccentricity p * cos_angle)%float = true ->
  exists e : B64.exn, B64.Ui3.calculate_position p cos_angle sin_angle
                      = B64.Raise e.
Proof.
  intros Z. unfold B64.Ui3.calculate_position.
  destruct (B64.pow2 (B64.eccentricity p)) as [e2 | ex];
    cbn [B64.bind]; [| eauto].
  set (r := ((B64.semi_major_axis p * (1 - e2))
             / (1 + B64.eccentricity p * cos_angle))%float).
  assert (R : match Prim2SF r with
              | S754_nan | S754_infinity _ => True
              | _ => False
              end).
  { unfold r. rewrite div_spec. rewrite f64_is_zero in Z.
    destruct (Prim2SF (1 + B64.eccentricity p * cos_angle)%float) as [s | | |];
      try discriminate.
    apply SFdiv_by_zero. }
  destruct (f64_int_not_finite (r * cos_angle * B64.SCALE)%float) as [H | H].
  { rewrite !mul_spec. now do 2 apply SFmul_not_finite. }
  all: rewrite H; cbn [B64.bind]; eauto.
Qed.

Lemma X10_unguarded_position_raises_witness :
  exists e : B64.exn,
    B64.Ui3.calculate_position (B64.mk_orbit 1 2.402997961722381)
      (-0.4161468365471424) 0.9092974268256817 = B64.Raise e.
Proof.
  apply (X10_unguarded_position_raises (B64.mk_orbit 1 2.402997961722381)
           (-0.4161468365471424) 0.9092974268256817).
  reflexivity.
Defined.
